(** * VoiceConsultation: the consultation panel and its event handlers

    A shallow embedding of [components/VoiceConsultation.tsx] (the
    React Native component mounted by [HomeScreen]).  The component owns one
    state record ([useState]), one mutable reference ([useRef]) holding the
    live capture, and five asynchronous handlers.  Handlers are embedded as
    terms of a small free monad [Task]: every [await] of a platform promise
    is a suspension point, so that the event loop below can interleave other
    taps and callbacks exactly where the JavaScript run-time can. *)

From Stdlib Require Import String List Bool Arith Lia QArith.
Import ListNotations.
Local Open Scope string_scope.
Local Open Scope list_scope.
Local Open Scope nat_scope.

Set Implicit Arguments.

(** ** The state record *)

(** [interface ConsultationState]. *)
Record ConsultationState : Type := mkState {
  isRecording : bool;
  audioUri : option string;
  imageUri : option string;
  diagnosis : string;
  isProcessing : bool;
  isSpeaking : bool
}.

(** The argument of [useState]. *)
Definition initialState : ConsultationState :=
  {| isRecording := false;
     audioUri := None;
     imageUri := None;
     diagnosis := "";
     isProcessing := false;
     isSpeaking := false |}.

(** The object spreads [{ ...prev, field: v }] used by the updaters. *)
Definition with_isRecording (b : bool) (prev : ConsultationState) :=
  {| isRecording := b; audioUri := audioUri prev; imageUri := imageUri prev;
     diagnosis := diagnosis prev; isProcessing := isProcessing prev;
     isSpeaking := isSpeaking prev |}.

Definition with_imageUri (u : option string) (prev : ConsultationState) :=
  {| isRecording := isRecording prev; audioUri := audioUri prev; imageUri := u;
     diagnosis := diagnosis prev; isProcessing := isProcessing prev;
     isSpeaking := isSpeaking prev |}.

Definition with_diagnosis (d : string) (prev : ConsultationState) :=
  {| isRecording := isRecording prev; audioUri := audioUri prev;
     imageUri := imageUri prev; diagnosis := d;
     isProcessing := isProcessing prev; isSpeaking := isSpeaking prev |}.

Definition with_isProcessing (b : bool) (prev : ConsultationState) :=
  {| isRecording := isRecording prev; audioUri := audioUri prev;
     imageUri := imageUri prev; diagnosis := diagnosis prev;
     isProcessing := b; isSpeaking := isSpeaking prev |}.

Definition with_isSpeaking (b : bool) (prev : ConsultationState) :=
  {| isRecording := isRecording prev; audioUri := audioUri prev;
     imageUri := imageUri prev; diagnosis := diagnosis prev;
     isProcessing := isProcessing prev; isSpeaking := b |}.

(** ** Values exchanged with the platform *)

(** What a handler can catch. *)
Inductive Error : Type :=
| TypeError (msg : string)      (* member access on null or undefined *)
| NativeError (msg : string).   (* a platform call that threw or rejected *)

(** Result of [Audio.requestPermissionsAsync]. *)
Inductive PermissionResponse : Type := granted | denied.

(** An [Audio.Recording] object; [getURI] is what its method of that name
    returns. *)
Record Recording : Type := mkRecording { getURI : option string }.

Record AudioMode : Type := mkAudioMode {
  allowsRecordingIOS : bool;
  playsInSilentModeIOS : bool
}.

Inductive RecordingOptions : Type := HIGH_QUALITY | LOW_QUALITY.

Inductive MediaTypeOptions : Type := All | Images | Videos.

Record ImagePickerOptions : Type := mkPickerOptions {
  mediaTypes : MediaTypeOptions;
  allowsEditing : bool;
  aspect : nat * nat;
  quality : nat
}.

Record ImagePickerAsset : Type := mkAsset { uri : string }.

(** Result of [ImagePicker.launchImageLibraryAsync]. *)
Record ImagePickerResult : Type := mkPickerResult {
  canceled : bool;
  assets : list ImagePickerAsset
}.

(** The asynchronous platform calls of the component, indexed by the type
    their promise resolves to. *)
Inductive Call : Type -> Type :=
| Audio_requestPermissionsAsync : Call PermissionResponse
| Audio_setAudioModeAsync (mode : AudioMode) : Call unit
| Audio_Recording_createAsync (options : RecordingOptions) : Call Recording
| Recording_stopAndUnloadAsync (r : Recording) : Call unit
| ImagePicker_launchImageLibraryAsync (options : ImagePickerOptions)
    : Call ImagePickerResult.

(** How a promise settles. *)
Inductive Settled (X : Type) : Type :=
| Resolved (x : X)
| Rejected (e : Error).
Arguments Rejected {X} e.

(** ** Handlers as suspendable computations *)

(** One constructor per effect the handlers perform; [k] is the rest of the
    handler.  [Ret] is the normal end of a handler, [Throw] an exception on
    its way out. *)
Inductive Task : Type :=
| Ret
| Throw (e : Error)
| SetState (f : ConsultationState -> ConsultationState) (k : Task)
| GetRecording (k : option Recording -> Task)       (* read recording.current *)
| SetRecording (r : option Recording) (k : Task)    (* recording.current = r *)
| ConsoleError (msg : string) (e : Error) (k : Task)
| SetTimeout (callback : Task) (ms : nat) (k : Task)
| Spawn (t : Task) (k : Task)   (* call of an async function, not awaited *)
| SpeechSpeak (text language : string) (pitch rate : Q) (onDone : Task)
    (k : option Error -> Task)  (* Speech.speak: returns, or throws at once *)
| Await (X : Type) (c : Call X) (k : Settled X -> Task).

(** [try { body } catch (err) { handler err }]: an exception of [body], also
    one raised after an [await] inside it, runs [handler].  Exceptions of a
    timer callback or of a spawned call do not reach the handler. *)
Fixpoint try_catch (body : Task) (handler : Error -> Task) : Task :=
  match body with
  | Ret => Ret
  | Throw e => handler e
  | SetState f k => SetState f (try_catch k handler)
  | GetRecording k => GetRecording (fun r => try_catch (k r) handler)
  | SetRecording r k => SetRecording r (try_catch k handler)
  | ConsoleError msg e k => ConsoleError msg e (try_catch k handler)
  | SetTimeout cb ms k => SetTimeout cb ms (try_catch k handler)
  | Spawn t k => Spawn t (try_catch k handler)
  | SpeechSpeak text language pitch rate onDone k =>
      SpeechSpeak text language pitch rate onDone
        (fun r => try_catch (k r) handler)
  | Await c k => Await c (fun s => try_catch (k s) handler)
  end.

(** [await c]: resume with the value, or throw the rejection reason. *)
Definition await {X : Type} (c : Call X) (k : X -> Task) : Task :=
  Await c (fun s => match s with
                    | Resolved x => k x
                    | Rejected e => Throw e
                    end).

(** [recording.current.m(...)]: member access on the reference. *)
Definition recording_current (k : Recording -> Task) : Task :=
  GetRecording (fun cur => match cur with
                           | Some r => k r
                           | None => Throw (TypeError "Cannot read properties of null")
                           end).

(** [a[i]] followed by a member access. *)
Definition index {A : Type} (a : list A) (i : nat) (k : A -> Task) : Task :=
  match nth_error a i with
  | Some x => k x
  | None => Throw (TypeError "Cannot read properties of undefined")
  end.

Record SpeechOptions : Type := mkSpeechOptions {
  language : string;
  pitch : Q;
  rate : Q;
  onDone : Task
}.

(** [Speech.speak(text, options)]. *)
Definition Speech_speak (text : string) (options : SpeechOptions) (k : Task)
  : Task :=
  SpeechSpeak text (language options) (pitch options) (rate options)
    (onDone options)
    (fun thrown => match thrown with
                   | Some e => Throw e
                   | None => k
                   end).

Declare Scope task_scope.
Delimit Scope task_scope with task.
Bind Scope task_scope with Task.
Notation "x <- c ;; k" := (c (fun x => k))
  (at level 61, c at next level, right associativity, only parsing)
  : task_scope.
Notation "c ;; k" := (c k)
  (at level 61, right associativity, only parsing) : task_scope.
Local Open Scope task_scope.

(** ** The five handlers *)

Definition startRecording : Task :=
  try_catch
    (_ <- await Audio_requestPermissionsAsync ;;
     _ <- await (Audio_setAudioModeAsync
                   {| allowsRecordingIOS := true;
                      playsInSilentModeIOS := true |}) ;;
     newRecording <- await (Audio_Recording_createAsync HIGH_QUALITY) ;;
     SetRecording (Some newRecording) ;;
     SetState (fun prev => with_isRecording true prev) ;;
     Ret)
    (fun err => ConsoleError "Failed to start recording" err ;; Ret).

Definition mockDiagnosis : string :=
"Based on your symptoms and the provided image, here are my recommendations:

1. Apply over-the-counter hydrocortisone cream twice daily
2. Avoid scratching the affected area
3. Keep the area clean and dry
4. Take an oral antihistamine if experiencing itching
5. Consider using a gentle, fragrance-free moisturizer

Please note: This is an AI-generated recommendation. For accurate diagnosis and treatment, please consult with a healthcare professional.".

(** The value [Speech.speak] returns is not a promise: awaiting it resumes
    the (empty) rest of the handler before any other event, so the [await]
    leaves no suspension point. *)
Definition speakDiagnosis (text : string) : Task :=
  SetState (fun prev => with_isSpeaking true prev) ;;
  try_catch
    (Speech_speak text
       {| language := "en";
          pitch := 1;
          rate := 9 # 10;
          onDone := SetState (fun prev => with_isSpeaking false prev) ;; Ret |} ;;
     Ret)
    (fun error =>
       ConsoleError "Error speaking:" error ;;
       SetState (fun prev => with_isSpeaking false prev) ;;
       Ret).

Definition processConsultation : Task :=
  SetState (fun prev => with_isProcessing true prev) ;;
  SetState (fun prev =>
              with_isProcessing false (with_diagnosis mockDiagnosis prev)) ;;
  Spawn (speakDiagnosis mockDiagnosis) ;;
  Ret.

Definition stopRecording : Task :=
  cur <- GetRecording ;;
  match cur with
  | None => Ret
  | Some _ =>
      SetState (fun prev =>
                  with_isProcessing true (with_isRecording false prev)) ;;
      r <- recording_current ;;
      _ <- await (Recording_stopAndUnloadAsync r) ;;
      r' <- recording_current ;;
      let uri := getURI r' in
      SetRecording None ;;
      SetTimeout (Spawn processConsultation ;; Ret) 1500 ;;
      Ret
  end.

(** The updater of [pickImage] reads [result.assets[0].uri]; the read is
    placed before the [setState] that carries it. *)
Definition pickImage : Task :=
  result <- await (ImagePicker_launchImageLibraryAsync
                     {| mediaTypes := Images;
                        allowsEditing := true;
                        aspect := (4, 3);
                        quality := 1 |}) ;;
  if negb (canceled result) then
    asset0 <- index (assets result) 0 ;;
    SetState (fun prev => with_imageUri (Some (uri asset0)) prev) ;;
    Ret
  else Ret.

(** ** The component instance and the event loop *)

(** A handler suspended at an [await], waiting for its promise to settle. *)
Inductive Parked : Type :=
| Park (X : Type) (c : Call X) (k : Settled X -> Task).

(** An utterance handed to the synthesizer whose completion callback has not
    run yet. *)
Record Utterance : Type := mkUtterance {
  utterance_text : string;
  utterance_onDone : Task
}.

(** Everything a mounted [VoiceConsultation] consists of: the [useState]
    cell, the [useRef] cell, and what the run-time holds on its behalf.
    [history] lists the values the state record has taken (latest first),
    [speech_fault] says whether a call of [Speech.speak] throws. *)
Record World : Type := mkWorld {
  state : ConsultationState;
  recording : option Recording;
  parked : list Parked;
  timers : list (nat * Task);
  speaking : list Utterance;
  console : list (string * Error);
  unhandled : list Error;
  history : list ConsultationState;
  speech_fault : option Error
}.

Definition initialWorld : World :=
  {| state := initialState;
     recording := None;
     parked := [];
     timers := [];
     speaking := [];
     console := [];
     unhandled := [];
     history := [];
     speech_fault := None |}.

Definition set_state (f : ConsultationState -> ConsultationState) (w : World) :=
  {| state := f (state w); recording := recording w; parked := parked w;
     timers := timers w; speaking := speaking w; console := console w;
     unhandled := unhandled w; history := f (state w) :: history w;
     speech_fault := speech_fault w |}.

Definition set_recording (r : option Recording) (w : World) :=
  {| state := state w; recording := r; parked := parked w;
     timers := timers w; speaking := speaking w; console := console w;
     unhandled := unhandled w; history := history w;
     speech_fault := speech_fault w |}.

Definition set_parked (l : list Parked) (w : World) :=
  {| state := state w; recording := recording w; parked := l;
     timers := timers w; speaking := speaking w; console := console w;
     unhandled := unhandled w; history := history w;
     speech_fault := speech_fault w |}.

Definition set_timers (l : list (nat * Task)) (w : World) :=
  {| state := state w; recording := recording w; parked := parked w;
     timers := l; speaking := speaking w; console := console w;
     unhandled := unhandled w; history := history w;
     speech_fault := speech_fault w |}.

Definition set_speaking (l : list Utterance) (w : World) :=
  {| state := state w; recording := recording w; parked := parked w;
     timers := timers w; speaking := l; console := console w;
     unhandled := unhandled w; history := history w;
     speech_fault := speech_fault w |}.

Definition console_error (msg : string) (e : Error) (w : World) :=
  {| state := state w; recording := recording w; parked := parked w;
     timers := timers w; speaking := speaking w;
     console := console w ++ [(msg, e)];
     unhandled := unhandled w; history := history w;
     speech_fault := speech_fault w |}.

Definition unhandled_rejection (e : Error) (w : World) :=
  {| state := state w; recording := recording w; parked := parked w;
     timers := timers w; speaking := speaking w; console := console w;
     unhandled := unhandled w ++ [e]; history := history w;
     speech_fault := speech_fault w |}.

Definition set_speech_fault (o : option Error) (w : World) :=
  {| state := state w; recording := recording w; parked := parked w;
     timers := timers w; speaking := speaking w; console := console w;
     unhandled := unhandled w; history := history w;
     speech_fault := o |}.

(** Run a handler up to its end or its next [await].  An exception that
    leaves the handler rejects the promise of the async function, which
    nobody observes. *)
Fixpoint exec (t : Task) (w : World) : World :=
  match t with
  | Ret => w
  | Throw e => unhandled_rejection e w
  | SetState f k => exec k (set_state f w)
  | GetRecording k => exec (k (recording w)) w
  | SetRecording r k => exec k (set_recording r w)
  | ConsoleError msg e k => exec k (console_error msg e w)
  | SetTimeout cb ms k => exec k (set_timers (timers w ++ [(ms, cb)]) w)
  | Spawn t' k => exec k (exec t' w)
  | SpeechSpeak text _ _ _ done k =>
      match speech_fault w with
      | Some e => exec (k (Some e)) w
      | None =>
          exec (k None)
            (set_speaking (speaking w ++ [mkUtterance text done]) w)
      end
  | Await c k => set_parked (parked w ++ [Park c k]) w
  end.

(** [l] without its element at position [i]. *)
Fixpoint remove_nth {A : Type} (i : nat) (l : list A) {struct l} : list A :=
  match l, i with
  | [], _ => []
  | _ :: l', 0 => l'
  | x :: l', S i' => x :: remove_nth i' l'
  end.

(** What the platform answers to a pending call. *)
Inductive Settlement : Type :=
| Resolve_permission (p : PermissionResponse)
| Resolve_void
| Resolve_recording (r : Recording)
| Resolve_picker (r : ImagePickerResult)
| Reject (e : Error).

(** The settlement as seen by the awaiting handler, when it has the type the
    call resolves to. *)
Definition deliver {X : Type} (c : Call X) (o : Settlement)
  : option (Settled X) :=
  match c in Call X return option (Settled X) with
  | Audio_requestPermissionsAsync =>
      match o with
      | Resolve_permission p => Some (Resolved p)
      | Reject e => Some (Rejected e)
      | _ => None
      end
  | Audio_setAudioModeAsync _ =>
      match o with
      | Resolve_void => Some (Resolved tt)
      | Reject e => Some (Rejected e)
      | _ => None
      end
  | Audio_Recording_createAsync _ =>
      match o with
      | Resolve_recording r => Some (Resolved r)
      | Reject e => Some (Rejected e)
      | _ => None
      end
  | Recording_stopAndUnloadAsync _ =>
      match o with
      | Resolve_void => Some (Resolved tt)
      | Reject e => Some (Rejected e)
      | _ => None
      end
  | ImagePicker_launchImageLibraryAsync _ =>
      match o with
      | Resolve_picker r => Some (Resolved r)
      | Reject e => Some (Rejected e)
      | _ => None
      end
  end.

(** JavaScript truthiness of the two strings the render function tests. *)
Definition truthy (s : string) : bool := negb (String.eqb s "").

Definition truthy_opt (o : option string) : bool :=
  match o with
  | Some s => truthy s
  | None => false
  end.

(** What can happen to a mounted panel: the four touchables of the render
    function, a promise settling, a timer firing, the synthesizer finishing
    an utterance, and the synthesizer breaking or recovering. *)
Inductive Event : Type :=
| PressRecord
| PressUploadImage
| PressGetDiagnosis
| PressSpeak
| Settle (i : nat) (o : Settlement)
| TimerFires (i : nat)
| SpeechDone (i : nat)
| SpeechFault (o : option Error).

Definition step (e : Event) (w : World) : World :=
  match e with
  | PressRecord =>
      exec (if isRecording (state w) then stopRecording else startRecording) w
  | PressUploadImage => exec pickImage w
  | PressGetDiagnosis =>
      (* rendered only under [state.imageUri && ...] *)
      if truthy_opt (imageUri (state w)) then exec processConsultation w
      else w
  | PressSpeak =>
      (* rendered only under [state.diagnosis && ...];
         [disabled={state.isSpeaking}] *)
      if truthy (diagnosis (state w)) && negb (isSpeaking (state w))
      then exec (speakDiagnosis (diagnosis (state w))) w
      else w
  | Settle i o =>
      match nth_error (parked w) i with
      | Some (Park c k) =>
          match deliver c o with
          | Some s => exec (k s) (set_parked (remove_nth i (parked w)) w)
          | None => w
          end
      | None => w
      end
  | TimerFires i =>
      match nth_error (timers w) i with
      | Some (_, cb) => exec cb (set_timers (remove_nth i (timers w)) w)
      | None => w
      end
  | SpeechDone i =>
      match nth_error (speaking w) i with
      | Some u =>
          exec (utterance_onDone u)
            (set_speaking (remove_nth i (speaking w)) w)
      | None => w
      end
  | SpeechFault o => set_speech_fault o w
  end.

(** The events of [evs], in order. *)
Fixpoint run (evs : list Event) (w : World) : World :=
  match evs with
  | [] => w
  | e :: evs' => run evs' (step e w)
  end.

(** ** Executions that respect a usage discipline *)

(** The render function guards one control only (the speak button); every
    other restriction on the order of events is a discipline of the user and
    of the platform.  A [Policy] names such a discipline, as gates on the
    events, together with the property of the state record and of the
    utterance queue it is meant to maintain.  [after_done] is what is left of
    the property between the end of an utterance and its [onDone]. *)
Record Policy : Type := mkPolicy {
  property : ConsultationState -> list Utterance -> Prop;
  after_done : ConsultationState -> list Utterance -> Prop;
  settle_gate : forall X : Type, Call X -> Settled X -> ConsultationState -> bool;
  timer_gate : ConsultationState -> bool;
  press_gate : Event -> ConsultationState -> bool
}.

Definition is_press (e : Event) : bool :=
  match e with
  | PressRecord | PressUploadImage | PressGetDiagnosis | PressSpeak => true
  | _ => false
  end.

Definition holds (pol : Policy) (w : World) : Prop :=
  property pol (state w) (speaking w).

(** Whether the discipline lets [e] happen in [w].  Events that find nothing
    to act on are harmless and always let through. *)
Definition permitted (pol : Policy) (e : Event) (w : World) : bool :=
  match e with
  | PressRecord | PressUploadImage | PressGetDiagnosis | PressSpeak =>
      press_gate pol e (state w)
  | Settle i o =>
      match nth_error (parked w) i with
      | Some (Park c _) =>
          match deliver c o with
          | Some s => settle_gate pol c s (state w)
          | None => true
          end
      | None => true
      end
  | TimerFires i =>
      match nth_error (timers w) i with
      | Some _ => timer_gate pol (state w)
      | None => true
      end
  | SpeechDone _ | SpeechFault _ => true
  end.

Fixpoint allowed (pol : Policy) (evs : list Event) (w : World) : bool :=
  match evs with
  | [] => true
  | e :: evs' => permitted pol e w && allowed pol evs' (step e w)
  end.

(** [respects pol t]: whatever [t] leaves behind for later (the rest of a
    handler after an [await], a timer callback, a completion callback)
    re-establishes the property when it is run under the discipline, and so
    does whatever that in turn leaves behind. *)
Fixpoint respects (pol : Policy) (t : Task) : Prop :=
  match t with
  | Ret | Throw _ => True
  | SetState _ k | SetRecording _ k | ConsoleError _ _ k => respects pol k
  | GetRecording k => forall r, respects pol (k r)
  | SetTimeout cb _ k =>
      (respects pol cb
       /\ forall w, holds pol w -> timer_gate pol (state w) = true ->
                    holds pol (exec cb w))
      /\ respects pol k
  | Spawn t' k => respects pol t' /\ respects pol k
  | SpeechSpeak _ _ _ _ done k =>
      (respects pol done
       /\ forall w, after_done pol (state w) (speaking w) ->
                    holds pol (exec done w))
      /\ forall r, respects pol (k r)
  | Await c k =>
      forall s,
        respects pol (k s)
        /\ forall w, holds pol w -> settle_gate pol c s (state w) = true ->
                     holds pol (exec (k s) w)
  end.

Definition parked_respects (pol : Policy) (p : Parked) : Prop :=
  match p with
  | Park c k =>
      forall s,
        respects pol (k s)
        /\ forall w, holds pol w -> settle_gate pol c s (state w) = true ->
                     holds pol (exec (k s) w)
  end.

Definition timer_respects (pol : Policy) (tm : nat * Task) : Prop :=
  respects pol (snd tm)
  /\ forall w, holds pol w -> timer_gate pol (state w) = true ->
               holds pol (exec (snd tm) w).

Definition utterance_respects (pol : Policy) (u : Utterance) : Prop :=
  respects pol (utterance_onDone u)
  /\ forall w, after_done pol (state w) (speaking w) ->
               holds pol (exec (utterance_onDone u) w).

(** Everything the run-time holds for later respects the discipline. *)
Definition deferred_respect (pol : Policy) (w : World) : Prop :=
  Forall (parked_respects pol) (parked w)
  /\ Forall (timer_respects pol) (timers w)
  /\ Forall (utterance_respects pol) (speaking w).

(** The flow of the screen: a capture is never created while a consultation
    is being processed. *)
Definition recording_flow : Policy :=
  {| property := fun s _ => isRecording s && isProcessing s = false;
     after_done := fun s _ => isRecording s && isProcessing s = false;
     settle_gate := fun X c s st =>
       match c, s with
       | Audio_Recording_createAsync _, Resolved _ => negb (isProcessing st)
       | _, _ => true
       end;
     timer_gate := fun _ => true;
     press_gate := fun _ _ => true |}.

(** The flow of the screen: a diagnosis is never generated (by the button or
    by the timer of [stopRecording]) while the previous one is being read. *)
Definition speech_flow : Policy :=
  {| property := fun s us =>
       length us <= 1 /\ (isSpeaking s = false -> us = []);
     after_done := fun _ us => us = [];
     settle_gate := fun _ _ _ _ => true;
     timer_gate := fun st => negb (isSpeaking st);
     press_gate := fun e st =>
       match e with
       | PressGetDiagnosis => negb (isSpeaking st)
       | _ => true
       end |}.

(** No discipline at all, for a property of the state record that every
    execution keeps: [audioUri] is still what [useState] made it. *)
Definition audioUri_untouched : Policy :=
  {| property := fun s _ => audioUri s = None;
     after_done := fun s _ => audioUri s = None;
     settle_gate := fun _ _ _ _ => true;
     timer_gate := fun _ => true;
     press_gate := fun _ _ => true |}.

(** ** Sample executions *)

Definition sample_capture : Recording :=
  {| getURI := Some "file:///cache/recording-1.m4a" |}.

Definition sample_image : ImagePickerResult :=
  {| canceled := false; assets := [ {| uri := "file:///cache/photo-1.jpg" |} ] |}.

(** Tap on the record button, permission granted, session configured,
    capture created. *)
Definition start_ok : list Event :=
  [PressRecord; Settle 0 (Resolve_permission granted); Settle 0 Resolve_void;
   Settle 0 (Resolve_recording sample_capture)].

Definition world_while_recording : World := run start_ok initialWorld.

(** Second tap on the record button; the capture is finalized. *)
Definition stop_ok : list Event := [PressRecord; Settle 0 Resolve_void].

(** A photo is chosen. *)
Definition pick_ok : list Event :=
  [PressUploadImage; Settle 0 (Resolve_picker sample_image)].

(** ** What the screen shows *)

(** The elements the two components return.  Styles are named by their key
    in [styles]. *)
#[warnings="-register-all"] Inductive Element : Type :=
| SafeAreaView (children : list Element)
| ScrollView (style : list string) (children : list Element)
| View (style : list string) (children : list Element)
| Text (style : list string) (content : string)
| Image (source_uri : string) (style : list string)
| ActivityIndicator (size color : string)
| FontAwesome5 (name : string) (size : nat) (color : string)
| MaterialIcons (name : string) (size : nat) (color : string)
| TouchableOpacity (style : list string) (onPress : Task) (disabled : bool)
    (children : list Element).

(** [{cond && (<element/>)}]: a falsy [cond] renders nothing. *)
Definition when (cond : bool) (e : Element) : list Element :=
  if cond then [e] else [].

(** The [return] of [VoiceConsultation], for the state of the current
    render. *)
Definition VoiceConsultation (state : ConsultationState) : Element :=
  ScrollView ["container"]
    ([ View ["header"]
         [ FontAwesome5 "user-md" 40 "#2c3e50";
           Text ["title"] "AI Medical Consultation" ];
       View ["inputSection"]
         ([ TouchableOpacity
              ("recordButton"
               :: (if isRecording state then ["recording"] else []))
              (if isRecording state then stopRecording else startRecording)
              false
              [ MaterialIcons (if isRecording state then "stop" else "mic")
                  32 "white";
                Text ["buttonText"]
                  (if isRecording state then "Stop Recording"
                   else "Start Recording") ];
            TouchableOpacity ["imageButton"] pickImage false
              [ MaterialIcons "add-photo-alternate" 32 "white";
                Text ["buttonText"] "Upload Image" ] ]
          ++ match imageUri state with
             | Some u =>
                 when (truthy u)
                   (View ["imageContainer"]
                      [ Image u ["image"];
                        TouchableOpacity ["submitButton"] processConsultation
                          false
                          [ Text ["submitText"] "Get Diagnosis" ] ])
             | None => []
             end) ]
     ++ when (isProcessing state)
          (View ["processingContainer"]
             [ ActivityIndicator "large" "#2c3e50";
               Text ["processingText"] "Processing your consultation..." ])
     ++ when (truthy (diagnosis state))
          (View ["diagnosisContainer"]
             [ Text ["diagnosisTitle"] "AI Diagnosis & Recommendations";
               Text ["diagnosisText"] (diagnosis state);
               TouchableOpacity ["speakButton"]
                 (Spawn (speakDiagnosis (diagnosis state)) Ret)
                 (isSpeaking state)
                 [ MaterialIcons
                     (if isSpeaking state then "volume-up" else "volume-up")
                     24 "white";
                   Text ["buttonText"]
                     (if isSpeaking state then "Speaking..."
                      else "Speak Diagnosis") ] ])).

(** The [return] of [HomeScreen]: the panel in a safe-area container. *)
Definition HomeScreen (state : ConsultationState) : Element :=
  SafeAreaView [VoiceConsultation state].

(** A control of the screen, as a tap sees it. *)
Record Touchable : Type := mkTouchable {
  touch_style : list string;
  touch_onPress : Task;
  touch_disabled : bool
}.

(** The controls of a screen, in document order. *)
Fixpoint touchables (e : Element) : list Touchable :=
  match e with
  | SafeAreaView cs | ScrollView _ cs | View _ cs =>
      (fix all (l : list Element) : list Touchable :=
         match l with
         | [] => []
         | c :: l' => touchables c ++ all l'
         end) cs
  | TouchableOpacity st h d _ => [mkTouchable st h d]
  | _ => []
  end.

(** The contents of the [Text] elements that carry the style [key]. *)
Fixpoint texts (key : string) (e : Element) : list string :=
  match e with
  | SafeAreaView cs | ScrollView _ cs | View _ cs
  | TouchableOpacity _ _ _ cs =>
      (fix all (l : list Element) : list string :=
         match l with
         | [] => []
         | c :: l' => texts key c ++ all l'
         end) cs
  | Text st content =>
      if existsb (String.eqb key) st then [content] else []
  | _ => []
  end.

(** A tap on the control styled [key]: its [onPress] runs, unless the
    control is disabled or not on the screen. *)
Definition press (key : string) (screen : Element) (w : World) : World :=
  match find (fun t => existsb (String.eqb key) (touch_style t))
          (touchables screen) with
  | Some t => if touch_disabled t then w else exec (touch_onPress t) w
  | None => w
  end.

(** ** More disciplines *)

(** No discipline: whatever is shown or read aloud is the fixed
    recommendation. *)
Definition fixed_text : Policy :=
  {| property := fun s us =>
       (diagnosis s = "" \/ diagnosis s = mockDiagnosis)
       /\ (isSpeaking s = true -> diagnosis s = mockDiagnosis)
       /\ Forall (fun u => utterance_text u = mockDiagnosis) us;
     after_done := fun s us =>
       (diagnosis s = "" \/ diagnosis s = mockDiagnosis)
       /\ Forall (fun u => utterance_text u = mockDiagnosis) us;
     settle_gate := fun _ _ _ _ => true;
     timer_gate := fun _ => true;
     press_gate := fun _ _ => true |}.

(** No discipline: a diagnosis that is shown stays. *)
Definition diagnosis_shown : Policy :=
  {| property := fun s _ => diagnosis s = mockDiagnosis;
     after_done := fun s _ => diagnosis s = mockDiagnosis;
     settle_gate := fun _ _ _ _ => true;
     timer_gate := fun _ => true;
     press_gate := fun _ _ => true |}.

(** The picker never hands back a selection. *)
Definition no_photo : Policy :=
  {| property := fun s _ => imageUri s = None;
     after_done := fun s _ => imageUri s = None;
     settle_gate := fun X c =>
       match c in Call X return Settled X -> ConsultationState -> bool with
       | ImagePicker_launchImageLibraryAsync _ =>
           fun s _ => match s with
                      | Resolved result => canceled result
                      | Rejected _ => true
                      end
       | _ => fun _ _ => true
       end;
     timer_gate := fun _ => true;
     press_gate := fun _ _ => true |}.

(** ** Running one handler from start to end *)

Lemma nth_error_snoc (A : Type) (l : list A) (x : A) :
  nth_error (l ++ [x]) (length l) = Some x.
Proof.
  induction l as [|a l IH]; simpl; auto.
Qed.

Lemma remove_nth_snoc (A : Type) (l : list A) (x : A) :
  remove_nth (length l) (l ++ [x]) = l.
Proof.
  induction l as [|a l IH]; simpl; [reflexivity | now rewrite IH].
Qed.

Lemma set_parked_same (w : World) : set_parked (parked w) w = w.
Proof. destruct w; reflexivity. Qed.

Lemma exec_Await (X : Type) (c : Call X) (k : Settled X -> Task) (w : World) :
  exec (Await c k) w = set_parked (parked w ++ [Park c k]) w.
Proof. reflexivity. Qed.

(** Settling the call a handler has just parked resumes that handler in the
    world it was suspended in. *)
Lemma step_settle_parked (X : Type) (c : Call X) (k : Settled X -> Task)
    (o : Settlement) (w : World) :
  step (Settle (length (parked w)) o) (set_parked (parked w ++ [Park c k]) w)
  = match deliver c o with
    | Some s => exec (k s) w
    | None => set_parked (parked w ++ [Park c k]) w
    end.
Proof.
  unfold step. cbn [parked set_parked].
  rewrite nth_error_snoc, remove_nth_snoc.
  destruct (deliver c o); [|reflexivity].
  f_equal. destruct w; reflexivity.
Qed.

(** Symbolic execution of a handler: [run_sync] runs the synchronous part
    of the handler in focus, [resume] feeds the next settlement of the trace
    to the handler that was suspended last. *)
Ltac run_sync :=
  cbn [exec try_catch await recording_current index deliver Speech_speak
       nth_error negb canceled assets].

Ltac resume := rewrite step_settle_parked; run_sync.

(** ** Executions under a discipline keep its property *)

Lemma Forall_remove_nth (A : Type) (Q : A -> Prop) (l : list A) (i : nat) :
  Forall Q l -> Forall Q (remove_nth i l).
Proof.
  intros H. revert i.
  induction H as [|x l Hx Hl IH]; intros i; destruct i; simpl;
    try constructor; auto.
Qed.

Lemma Forall_snoc (A : Type) (Q : A -> Prop) (l : list A) (x : A) :
  Forall Q l -> Q x -> Forall Q (l ++ [x]).
Proof.
  intros Hl Hx. apply Forall_app. split; [assumption | repeat constructor; assumption].
Qed.

Lemma Forall_nth_error (A : Type) (Q : A -> Prop) (l : list A) (i : nat) (x : A) :
  Forall Q l -> nth_error l i = Some x -> Q x.
Proof.
  intros Hl Hx. rewrite Forall_forall in Hl. apply Hl.
  eapply nth_error_In; eassumption.
Qed.

Section Discipline.

Variable pol : Policy.

Hypothesis handlers_respect :
  respects pol startRecording
  /\ respects pol stopRecording
  /\ respects pol pickImage
  /\ respects pol processConsultation
  /\ forall text, respects pol (speakDiagnosis text).

Hypothesis press_holds :
  forall e w,
    is_press e = true -> holds pol w -> press_gate pol e (state w) = true ->
    holds pol (step e w).

Hypothesis done_ready :
  forall s us i u,
    property pol s us -> nth_error us i = Some u ->
    after_done pol s (remove_nth i us).

(** Running a task adds to the run-time only what [respects] vouches
    for. *)
Lemma exec_deferred (t : Task) :
  forall w,
    respects pol t -> deferred_respect pol w ->
    deferred_respect pol (exec t w).
Proof.
  induction t as [ | e | f k IHk | k IHk | r k IHk | msg e k IHk
                 | cb IHcb ms k IHk | t' IHt' k IHk
                 | text lang p r done IHdone k IHk | X c k IHk ];
    intros w Ht Hw; simpl in *.
  - assumption.
  - assumption.
  - apply IHk; assumption.
  - apply IHk; [apply Ht | assumption].
  - apply IHk; assumption.
  - apply IHk; assumption.
  - destruct Ht as [Hcb Hk]. apply IHk; [assumption|].
    destruct Hw as (Hp & Htm & Hu). repeat split; simpl; try assumption.
    apply Forall_snoc; assumption.
  - destruct Ht as [Ht' Hk]. apply IHk; [assumption|]. apply IHt'; assumption.
  - destruct Ht as [Hdone Hk].
    destruct (speech_fault w) as [e|].
    + apply IHk; [apply Hk | assumption].
    + apply IHk; [apply Hk |].
      destruct Hw as (Hp & Htm & Hu). repeat split; simpl; try assumption.
      apply Forall_snoc; assumption.
  - destruct Hw as (Hp & Htm & Hu). repeat split; simpl; try assumption.
    apply Forall_snoc; assumption.
Qed.

Lemma step_holds (e : Event) (w : World) :
  holds pol w -> deferred_respect pol w -> permitted pol e w = true ->
  holds pol (step e w) /\ deferred_respect pol (step e w).
Proof.
  intros Hh Hd Hp.
  destruct handlers_respect as (Hstart & Hstop & Hpick & Hproc & Hspeak).
  destruct e as [ | | | | i o | i | i | o ].
  - split; [apply press_holds; auto|].
    unfold step. destruct (isRecording (state w));
      apply exec_deferred; assumption.
  - split; [apply press_holds; auto|].
    unfold step. apply exec_deferred; assumption.
  - split; [apply press_holds; auto|].
    unfold step. destruct (truthy_opt (imageUri (state w)));
      [apply exec_deferred|]; assumption.
  - split; [apply press_holds; auto|].
    unfold step.
    destruct (truthy (diagnosis (state w)) && negb (isSpeaking (state w)));
      [apply exec_deferred; [apply Hspeak|]|]; assumption.
  - simpl in *.
    destruct (nth_error (parked w) i) as [[X c k]|] eqn:Hi; [|split; assumption].
    destruct (deliver c o) as [s|]; [|split; assumption].
    destruct Hd as (Hpk & Htm & Hu).
    pose proof (Forall_nth_error _ Hpk Hi) as Hk. simpl in Hk.
    destruct (Hk s) as [Hks Hkh].
    split.
    + apply Hkh; assumption.
    + apply exec_deferred; [assumption|].
      repeat split; simpl; try assumption.
      apply Forall_remove_nth; assumption.
  - simpl in *.
    destruct (nth_error (timers w) i) as [[ms cb]|] eqn:Hi; [|split; assumption].
    destruct Hd as (Hpk & Htm & Hu).
    pose proof (Forall_nth_error _ Htm Hi) as [Hcb Hcbh]. simpl in Hcb, Hcbh.
    split.
    + apply Hcbh; assumption.
    + apply exec_deferred; [assumption|].
      repeat split; simpl; try assumption.
      apply Forall_remove_nth; assumption.
  - simpl in *.
    destruct (nth_error (speaking w) i) as [u|] eqn:Hi; [|split; assumption].
    destruct Hd as (Hpk & Htm & Hu).
    pose proof (Forall_nth_error _ Hu Hi) as [Hcb Hcbh].
    split.
    + apply Hcbh. simpl. eapply done_ready; eassumption.
    + apply exec_deferred; [assumption|].
      repeat split; simpl; try assumption.
      apply Forall_remove_nth; assumption.
  - split; assumption.
Qed.

Lemma run_holds (evs : list Event) :
  forall w,
    holds pol w -> deferred_respect pol w -> allowed pol evs w = true ->
    holds pol (run evs w) /\ deferred_respect pol (run evs w).
Proof.
  induction evs as [|e evs IH]; intros w Hh Hd Ha; simpl in *.
  - split; assumption.
  - apply andb_prop in Ha. destruct Ha as [He Ha].
    destruct (step_holds e Hh Hd He) as [Hh' Hd'].
    apply IH; assumption.
Qed.

End Discipline.

Lemma deferred_initialWorld (pol : Policy) : deferred_respect pol initialWorld.
Proof. repeat split; constructor. Qed.

(** ** The two flows *)

Ltac break_task :=
  repeat first
    [ match goal with
      | |- _ /\ _ => split
      | |- True => exact I
      | s : Settled _ |- _ => destruct s
      | r : option Recording |- _ => destruct r
      | r : option Error |- _ => destruct r
      | |- context [if negb (canceled ?x) then _ else _] =>
          destruct (canceled x)
      | |- context [index (assets ?x) 0 _] =>
          unfold index; destruct (assets x)
      | |- context [match recording ?w with _ => _ end] =>
          destruct (recording w)
      | |- context [match speech_fault ?w with _ => _ end] =>
          destruct (speech_fault w)
      end
    | progress simpl
    | progress intros ].

Lemma recording_flow_handlers :
  respects recording_flow startRecording
  /\ respects recording_flow stopRecording
  /\ respects recording_flow pickImage
  /\ respects recording_flow processConsultation
  /\ forall text, respects recording_flow (speakDiagnosis text).
Proof.
  unfold holds. break_task.
  all: unfold holds in *; simpl in *.
  all: try assumption.
  all: try (destruct (isRecording (state w)), (isProcessing (state w));
            simpl in *; congruence).
Qed.

Lemma recording_flow_press (e : Event) (w : World) :
  is_press e = true -> holds recording_flow w ->
  press_gate recording_flow e (state w) = true ->
  holds recording_flow (step e w).
Proof.
  unfold holds. intros He Hw _.
  destruct e; try discriminate; unfold step.
  - destruct (isRecording (state w)) eqn:Hr; break_task; simpl in *;
      try assumption; try reflexivity.
    all: rewrite ?Hr; try assumption.
  - break_task; assumption.
  - destruct (truthy_opt (imageUri (state w))); break_task; try assumption.
    all: apply andb_false_r.
  - destruct (truthy (diagnosis (state w)) && negb (isSpeaking (state w)));
      break_task; assumption.
Qed.

Lemma recording_flow_run (evs : list Event) :
  allowed recording_flow evs initialWorld = true ->
  holds recording_flow (run evs initialWorld).
Proof.
  intros Ha.
  apply (run_holds recording_flow_handlers recording_flow_press); auto.
  - reflexivity.
  - apply deferred_initialWorld.
Qed.

Lemma speech_flow_handlers :
  respects speech_flow startRecording
  /\ respects speech_flow stopRecording
  /\ respects speech_flow pickImage
  /\ respects speech_flow processConsultation
  /\ forall text, respects speech_flow (speakDiagnosis text).
Proof.
  unfold holds. break_task.
  all: unfold holds in *; simpl in *.
  all: try assumption.
  all: try match goal with H : _ /\ _ |- _ => destruct H as [Hlen Hidle] end.
  all: try match goal with H : negb _ = true |- _ =>
             apply negb_true_iff in H; specialize (Hidle H)
           end.
  all: try match goal with H : speaking _ = [] |- _ => rewrite H in * end.
  all: simpl; try lia; try assumption; try discriminate; try reflexivity.
  all: auto.
Qed.

Lemma speech_flow_press (e : Event) (w : World) :
  is_press e = true -> holds speech_flow w ->
  press_gate speech_flow e (state w) = true ->
  holds speech_flow (step e w).
Proof.
  unfold holds. intros He [Hlen Hidle] Hg.
  destruct e; try discriminate; unfold step.
  - destruct (isRecording (state w)); break_task; simpl in *;
      try assumption; try lia; auto.
  - break_task; simpl in *; try assumption; try lia; auto.
  - simpl in Hg. apply negb_true_iff in Hg. specialize (Hidle Hg).
    destruct (truthy_opt (imageUri (state w))); break_task; simpl in *;
      rewrite ?Hidle; simpl; try lia; try assumption; try discriminate; auto.
  - destruct (truthy (diagnosis (state w))); simpl;
      [|split; assumption].
    destruct (isSpeaking (state w)) eqn:Hs; simpl;
      [split; [assumption | intros Hf; congruence] |].
    specialize (Hidle eq_refl).
    break_task; simpl in *;
      rewrite ?Hidle; simpl; try lia; try assumption; try discriminate; auto.
Qed.

Lemma speech_flow_done (s : ConsultationState) (us : list Utterance)
    (i : nat) (u : Utterance) :
  property speech_flow s us -> nth_error us i = Some u ->
  after_done speech_flow s (remove_nth i us).
Proof.
  simpl. intros [Hlen _] Hi.
  destruct us as [|u0 [|u1 us]]; simpl in *; try lia.
  - destruct i; discriminate.
  - destruct i as [|[|i]]; simpl in *; try reflexivity; discriminate.
Qed.

Lemma speech_flow_run (evs : list Event) :
  allowed speech_flow evs initialWorld = true ->
  holds speech_flow (run evs initialWorld).
Proof.
  intros Ha.
  apply (run_holds speech_flow_handlers speech_flow_press speech_flow_done);
    auto.
  - split; [simpl; lia | reflexivity].
  - apply deferred_initialWorld.
Qed.

(** ** The handlers, one by one *)

Lemma exec_processConsultation (w : World) :
  exec processConsultation w
  = let w2 :=
      set_state (fun prev =>
                   with_isProcessing false (with_diagnosis mockDiagnosis prev))
        (set_state (fun prev => with_isProcessing true prev) w) in
    let w3 := set_state (fun prev => with_isSpeaking true prev) w2 in
    match speech_fault w with
    | None =>
        set_speaking
          (speaking w
           ++ [mkUtterance mockDiagnosis
                 (SetState (fun prev => with_isSpeaking false prev) Ret)])
          w3
    | Some e =>
        set_state (fun prev => with_isSpeaking false prev)
          (console_error "Error speaking:" e w3)
    end.
Proof.
  simpl. destruct (speech_fault w); reflexivity.
Qed.

(** C1. Generate-diagnosis yields the fixed recommendation literal whatever
    the panel holds beforehand: two runs from any two instances of the panel
    (any [audioUri], any [imageUri], absent or present, and any other field)
    end with the same [diagnosis] string, namely [mockDiagnosis]. *)
Theorem C1_diagnosis_independent_of_inputs (w1 w2 : World) :
  diagnosis (state (exec processConsultation w1)) = mockDiagnosis
  /\ diagnosis (state (exec processConsultation w2))
     = diagnosis (state (exec processConsultation w1)).
Proof.
  rewrite !exec_processConsultation.
  destruct (speech_fault w1), (speech_fault w2); split; reflexivity.
Qed.

(** C5. Generate-diagnosis, from any state: [diagnosis] ends as the fixed
    string and [isProcessing] as [false]; on the way the state record passes
    through a value with [isSpeaking = true] that already shows the
    diagnosis; and [Speech.speak] is called on that text: when the call
    returns, the utterance is queued and [isSpeaking] is still [true] at the
    end, when it throws, the error is logged (and the flag reset). *)
Theorem C5_processConsultation_effect (w : World) :
  let w' := exec processConsultation w in
  diagnosis (state w') = mockDiagnosis
  /\ isProcessing (state w') = false
  /\ (exists new s,
        history w' = new ++ history w /\ In s new
        /\ isSpeaking s = true /\ diagnosis s = mockDiagnosis
        /\ isProcessing s = false)
  /\ match speech_fault w with
     | None =>
         isSpeaking (state w') = true
         /\ map utterance_text (speaking w')
            = map utterance_text (speaking w) ++ [mockDiagnosis]
     | Some e =>
         isSpeaking (state w') = false
         /\ speaking w' = speaking w
         /\ console w' = console w ++ [("Error speaking:", e)]
     end.
Proof.
  intros w'. subst w'. rewrite exec_processConsultation.
  destruct (speech_fault w) as [e|]; simpl.
  - split; [reflexivity|]. split; [reflexivity|]. split.
    + eexists [_; _; _; _], _.
      split; [reflexivity|].
      split; [right; left; reflexivity|].
      repeat split.
    + repeat split.
  - split; [reflexivity|]. split; [reflexivity|]. split.
    + eexists [_; _; _], _.
      split; [reflexivity|].
      split; [left; reflexivity|].
      repeat split.
    + split; [reflexivity|]. rewrite map_app. reflexivity.
Qed.

(** C8. [stopRecording] with no capture in [recording.current] returns at
    once: the panel, the reference and everything held by the run-time are
    what they were; in particular every field of the state record is
    unchanged and no timer (hence no diagnosis generation) is added. *)
Theorem C8_stopRecording_without_capture (w : World) :
  recording w = None ->
  exec stopRecording w = w
  /\ state (exec stopRecording w) = state w
  /\ timers (exec stopRecording w) = timers w.
Proof.
  intros H.
  assert (E : exec stopRecording w = w) by (simpl; rewrite H; reflexivity).
  rewrite E. repeat split.
Qed.

(** C8 on a panel that has just been mounted. *)
Lemma C8_witness :
  exec stopRecording initialWorld = initialWorld
  /\ state (exec stopRecording initialWorld) = state initialWorld
  /\ timers (exec stopRecording initialWorld) = timers initialWorld.
Proof.
  apply (C8_stopRecording_without_capture initialWorld). reflexivity.
Defined.

(** C9. Upload-image: when the picker resolves with [canceled], the panel is
    exactly what it was before the tap; when it resolves with a selection,
    [imageUri] becomes the location of the first asset and no other field of
    the state record changes. *)
Theorem C9_pickImage_effect (w : World) :
  let n := length (parked w) in
  (forall l,
      run [PressUploadImage;
           Settle n (Resolve_picker {| canceled := true; assets := l |})] w
      = w)
  /\ (forall a l,
         run [PressUploadImage;
              Settle n (Resolve_picker
                          {| canceled := false; assets := a :: l |})] w
         = set_state (fun prev => with_imageUri (Some (uri a)) prev) w)
  /\ (forall a l,
         state (run [PressUploadImage;
                     Settle n (Resolve_picker
                                 {| canceled := false; assets := a :: l |})] w)
         = {| isRecording := isRecording (state w);
              audioUri := audioUri (state w);
              imageUri := Some (uri a);
              diagnosis := diagnosis (state w);
              isProcessing := isProcessing (state w);
              isSpeaking := isSpeaking (state w) |}).
Proof.
  intros n. subst n.
  repeat split; intros; cbn [run];
    change (step PressUploadImage w) with (exec pickImage w);
    unfold pickImage; run_sync; resume; reflexivity.
Qed.

(** Whatever happens between the suspensions of [startRecording], each of
    its three continuations only logs when its call is rejected, in the world
    it is resumed in, and otherwise goes on to the next call. *)
Lemma startRecording_stages (w : World) :
  exists k1 k2 k3,
    exec startRecording w
    = set_parked (parked w ++ [Park Audio_requestPermissionsAsync k1]) w
    /\ (forall p w1,
           exec (k1 (Resolved p)) w1
           = set_parked
               (parked w1
                ++ [Park (Audio_setAudioModeAsync
                            {| allowsRecordingIOS := true;
                               playsInSilentModeIOS := true |}) k2]) w1)
    /\ (forall u w2,
           exec (k2 (Resolved u)) w2
           = set_parked
               (parked w2
                ++ [Park (Audio_Recording_createAsync HIGH_QUALITY) k3]) w2)
    /\ (forall r w3,
           exec (k3 (Resolved r)) w3
           = set_state (fun prev => with_isRecording true prev)
               (set_recording (Some r) w3))
    /\ (forall e w',
           exec (k1 (Rejected e)) w'
           = console_error "Failed to start recording" e w'
           /\ exec (k2 (Rejected e)) w'
              = console_error "Failed to start recording" e w'
           /\ exec (k3 (Rejected e)) w'
              = console_error "Failed to start recording" e w').
Proof.
  do 3 eexists. split; [reflexivity|].
  split; [intros; reflexivity|].
  split; [intros; reflexivity|].
  split; [intros; reflexivity|].
  intros; repeat split.
Qed.

(** A failing synthesizer: [speakDiagnosis] logs the error and clears the
    flag it has just set; nothing is queued. *)
Lemma speakDiagnosis_failure (text : string) (e : Error) (w : World) :
  speech_fault w = Some e ->
  let w' := exec (speakDiagnosis text) w in
  isSpeaking (state w') = false
  /\ console w' = console w ++ [("Error speaking:", e)]
  /\ speaking w' = speaking w
  /\ unhandled w' = unhandled w.
Proof.
  intros H. simpl. rewrite H. simpl. repeat split.
Qed.

(** C7. A tap on the record button of an idle panel whose start fails, at
    the permission request, at the configuration of the audio session or at
    the creation of the capture: the error is logged, and nothing else
    changes; the state record is the one before the tap and [isRecording]
    is still [false]. *)
Theorem C7_startRecording_failure
    (w : World) (e : Error) (p : PermissionResponse) :
  isRecording (state w) = false ->
  let n := length (parked w) in
  let failed := console_error "Failed to start recording" e w in
  run [PressRecord; Settle n (Reject e)] w = failed
  /\ run [PressRecord; Settle n (Resolve_permission p); Settle n (Reject e)] w
     = failed
  /\ run [PressRecord; Settle n (Resolve_permission p); Settle n Resolve_void;
          Settle n (Reject e)] w
     = failed
  /\ state failed = state w
  /\ isRecording (state failed) = false
  /\ recording failed = recording w.
Proof.
  intros Hidle n failed. subst n failed.
  assert (E : step PressRecord w = exec startRecording w)
    by (unfold step; rewrite Hidle; reflexivity).
  repeat split; try assumption; cbn [run]; rewrite E;
    unfold startRecording; run_sync; repeat resume; reflexivity.
Qed.

(** C7 on a freshly mounted panel whose capture cannot be created. *)
Lemma C7_witness :
  run [PressRecord; Settle 0 (Resolve_permission granted); Settle 0 Resolve_void;
       Settle 0 (Reject (NativeError "no microphone"))] initialWorld
  = console_error "Failed to start recording" (NativeError "no microphone")
      initialWorld.
Proof.
  apply (C7_startRecording_failure initialWorld (NativeError "no microphone")
           granted).
  reflexivity.
Defined.

(** C10. [startRecording] awaits the permission request and drops its
    result: whatever the user answered, [denied] included, the handler goes
    on to the very same continuation, which configures the audio session
    with the same options and then creates a high-quality capture; when the
    three platform calls succeed the capture is stored in
    [recording.current] and [isRecording] is set. *)
Theorem C10_permission_result_ignored
    (w : World) (p p' : PermissionResponse) (r : Recording) :
  let n := length (parked w) in
  let asked := exec startRecording w in
  run [Settle n (Resolve_permission p)] asked
  = run [Settle n (Resolve_permission p')] asked
  /\ (exists k,
         run [Settle n (Resolve_permission p)] asked
         = set_parked
             (parked w
              ++ [Park (Audio_setAudioModeAsync
                          {| allowsRecordingIOS := true;
                             playsInSilentModeIOS := true |}) k]) w)
  /\ (exists k,
         run [Settle n (Resolve_permission p); Settle n Resolve_void] asked
         = set_parked
             (parked w ++ [Park (Audio_Recording_createAsync HIGH_QUALITY) k])
             w)
  /\ run [Settle n (Resolve_permission p); Settle n Resolve_void;
          Settle n (Resolve_recording r)] asked
     = set_state (fun prev => with_isRecording true prev)
         (set_recording (Some r) w)
  /\ isRecording
       (state (run [Settle n (Resolve_permission p); Settle n Resolve_void;
                    Settle n (Resolve_recording r)] asked))
     = true.
Proof.
  intros n asked. subst n asked.
  unfold startRecording. run_sync. cbn [run].
  repeat split; try eexists; repeat resume; reflexivity.
Qed.

(** ** The audio location *)

Lemma audioUri_untouched_handlers :
  respects audioUri_untouched startRecording
  /\ respects audioUri_untouched stopRecording
  /\ respects audioUri_untouched pickImage
  /\ respects audioUri_untouched processConsultation
  /\ forall text, respects audioUri_untouched (speakDiagnosis text).
Proof.
  unfold holds. break_task.
  all: unfold holds in *; simpl in *; assumption.
Qed.

Lemma audioUri_untouched_press (e : Event) (w : World) :
  is_press e = true -> holds audioUri_untouched w ->
  press_gate audioUri_untouched e (state w) = true ->
  holds audioUri_untouched (step e w).
Proof.
  unfold holds. intros He Hw _.
  destruct e; try discriminate; unfold step.
  - destruct (isRecording (state w)); break_task; assumption.
  - break_task; assumption.
  - destruct (truthy_opt (imageUri (state w))); break_task; assumption.
  - destruct (truthy (diagnosis (state w)) && negb (isSpeaking (state w)));
      break_task; assumption.
Qed.

Lemma allowed_audioUri_untouched (evs : list Event) :
  forall w, allowed audioUri_untouched evs w = true.
Proof.
  induction evs as [|e evs IH]; intros w; simpl; [reflexivity|].
  rewrite IH, andb_true_r.
  destruct e as [ | | | | i o | i | i | o ]; simpl; try reflexivity.
  - destruct (nth_error (parked w) i) as [[X c k]|]; [|reflexivity].
    destruct (deliver c o); reflexivity.
  - destruct (nth_error (timers w) i); reflexivity.
Qed.

(** C3 (the code departs from it). A capture with a location is active and
    stop-recording runs to its end: the location the capture reports is not
    in [audioUri], which is still [null].  No execution of the panel ever
    writes that field. *)
Theorem C3_audioUri_never_stored :
  (recording world_while_recording = Some sample_capture
   /\ getURI sample_capture = Some "file:///cache/recording-1.m4a"
   /\ let w' := run stop_ok world_while_recording in
      audioUri (state w') = None
      /\ recording w' = None
      /\ isRecording (state w') = false
      /\ isProcessing (state w') = true
      /\ map fst (timers w') = [1500])
  /\ forall evs, audioUri (state (run evs initialWorld)) = None.
Proof.
  split.
  - vm_compute. repeat split.
  - intros evs.
    apply (run_holds audioUri_untouched_handlers audioUri_untouched_press);
      auto.
    + reflexivity.
    + apply deferred_initialWorld.
    + apply allowed_audioUri_untouched.
Qed.

(** ** Failures of the platform *)

(** C4 (the code departs from it). [stopRecording] and [pickImage] have no
    [try]: when finalizing the capture fails, nothing is logged, the
    rejection is unhandled, and the panel is left with [isProcessing = true]
    and no timer that would ever clear it, which is not the state before the
    tap; when the picker fails, nothing is logged either. *)
Theorem C4_uncaught_platform_failures :
  let e := NativeError "stopAndUnloadAsync failed" in
  let w' := run [PressRecord; Settle 0 (Reject e)] world_while_recording in
  let w'' := run [PressUploadImage; Settle 0 (Reject e)] initialWorld in
  (console w' = []
   /\ unhandled w' = [e]
   /\ isRecording (state world_while_recording) = true
   /\ isProcessing (state world_while_recording) = false
   /\ isRecording (state w') = false
   /\ isProcessing (state w') = true
   /\ timers w' = []
   /\ parked w' = [])
  /\ (console w'' = [] /\ unhandled w'' = [e] /\ state w'' = initialState).
Proof.
  vm_compute. repeat split.
Qed.

(** ** Recording and processing *)

(** C2, as stated, fails: stop a capture and start the next one before the
    timer of the first has fired. *)
Lemma C2_counterexample :
  let w := run (start_ok ++ stop_ok ++ start_ok) initialWorld in
  isRecording (state w) = true /\ isProcessing (state w) = true.
Proof.
  vm_compute. split; reflexivity.
Qed.

(** C2, amended. In every state reached by taps, settlements and callbacks
    in which no capture is created while [isProcessing] is [true], at most
    one of [isRecording] and [isProcessing] is [true]. *)
Theorem C2_recording_excludes_processing (evs : list Event) :
  allowed recording_flow evs initialWorld = true ->
  isRecording (state (run evs initialWorld))
  && isProcessing (state (run evs initialWorld)) = false.
Proof.
  intros Ha. exact (recording_flow_run evs Ha).
Qed.

(** C2 on a full consultation: record, attach a photo, stop, diagnosis. *)
Lemma C2_witness :
  let evs := start_ok ++ pick_ok ++ stop_ok
             ++ [TimerFires 0; PressRecord; SpeechDone 0; PressSpeak;
                 PressGetDiagnosis; Settle 0 (Resolve_permission denied)] in
  isRecording (state (run evs initialWorld))
  && isProcessing (state (run evs initialWorld)) = false.
Proof.
  apply C2_recording_excludes_processing. vm_compute. reflexivity.
Defined.

(** ** Speech sessions *)

Lemma speak_disabled_while_speaking (w : World) :
  isSpeaking (state w) = true -> step PressSpeak w = w.
Proof.
  intros H. unfold step. rewrite H, andb_false_r. reflexivity.
Qed.

(** C6, as stated, fails: generate-diagnosis starts a playback without
    looking at [isSpeaking], so a second tap on it while the first reading
    is in progress queues a second utterance. *)
Lemma C6_counterexample :
  let w := run (pick_ok ++ [PressGetDiagnosis]) initialWorld in
  isSpeaking (state w) = true
  /\ length (speaking w) = 1
  /\ length (speaking (step PressGetDiagnosis w)) = 2.
Proof.
  vm_compute. repeat split.
Qed.

(** C6, amended. In every state reached by taps, settlements and callbacks
    in which generate-diagnosis (its button, or the timer of stop-recording)
    does not run while [isSpeaking] is [true]: at most one utterance is in
    progress; while [isSpeaking] is [true] a tap on the speak control does
    nothing; while it is [false] no utterance is in progress. *)
Theorem C6_no_overlapping_speech (evs : list Event) :
  allowed speech_flow evs initialWorld = true ->
  let w := run evs initialWorld in
  length (speaking w) <= 1
  /\ if isSpeaking (state w) then step PressSpeak w = w
     else speaking w = [].
Proof.
  intros Ha w.
  destruct (speech_flow_run evs Ha) as [Hlen Hidle]. fold w in Hlen, Hidle.
  split; [assumption|].
  destruct (isSpeaking (state w)) eqn:Hs.
  - apply speak_disabled_while_speaking; assumption.
  - apply Hidle; reflexivity.
Qed.

(** C6 on a consultation whose diagnosis is being read. *)
Lemma C6_witness :
  let w := run (start_ok ++ stop_ok ++ [TimerFires 0; PressSpeak])
             initialWorld in
  length (speaking w) <= 1
  /\ if isSpeaking (state w) then step PressSpeak w = w
     else speaking w = [].
Proof.
  apply C6_no_overlapping_speech. vm_compute. reflexivity.
Defined.

(** ** Speaking *)

Lemma nth_error_middle (A : Type) (l l' : list A) (x : A) :
  nth_error (l ++ x :: l') (length l) = Some x.
Proof.
  induction l as [|a l IH]; simpl; auto.
Qed.

Lemma remove_nth_middle (A : Type) (l l' : list A) (x : A) :
  remove_nth (length l) (l ++ x :: l') = l ++ l'.
Proof.
  induction l as [|a l IH]; simpl; [reflexivity | now rewrite IH].
Qed.

Lemma nth_error_second (A : Type) (l l' : list A) (x y : A) :
  nth_error (l ++ x :: y :: l') (S (length l)) = Some y.
Proof.
  induction l as [|a l IH]; simpl; auto.
Qed.

Lemma remove_nth_second (A : Type) (l l' : list A) (x y : A) :
  remove_nth (S (length l)) (l ++ x :: y :: l') = l ++ x :: l'.
Proof.
  induction l as [|a l IH]; simpl; [reflexivity | now rewrite IH].
Qed.

(** Symbolic execution of a trace on a world given by its fields, one event
    at a time: [advance] replaces [run (e :: evs) W] by [run evs W'], where
    [W'] is [step e W] evaluated down to its fields. *)
Ltac flatten_world :=
  cbv beta iota delta
    [set_state set_recording set_parked set_timers set_speaking console_error
     unhandled_rejection set_speech_fault state recording parked timers
     speaking console unhandled history speech_fault].

Ltac find_deferred :=
  rewrite ?nth_error_middle, ?remove_nth_middle,
          ?nth_error_second, ?remove_nth_second, ?app_nil_r.

Ltac eval_step :=
  unfold step; flatten_world; find_deferred;
  repeat (simpl;
          repeat match goal with
                 | H : isRecording ?s = _ |- context [isRecording ?s] =>
                     rewrite H
                 end;
          rewrite <- ?app_assoc; simpl; find_deferred);
  flatten_world.

Ltac advance :=
  lazymatch goal with
  | |- run (?e :: ?evs) ?W = _ =>
      let E := fresh "E" in
      eassert (E : step e W = _) by (eval_step; reflexivity);
      change (run (e :: evs) W) with (run evs (step e W));
      rewrite E; clear E
  end.

(** [run_to w' E]: the world the trace of the local definition [w'] ends
    in, as an equation [E]. *)
Ltac run_to w' E :=
  eassert (E : w' = _) by (subst w'; repeat advance; reflexivity);
  clearbody w'; subst w'.

Ltac run_trace :=
  cbn [run]; unfold step;
  repeat (simpl;
          rewrite ?nth_error_snoc, ?remove_nth_snoc,
                  ?nth_error_middle, ?remove_nth_middle).

(** X1. When [Speech.speak] throws, [speakDiagnosis] catches the error: it
    is logged under "Error speaking:", [isSpeaking] is [false] again when
    the handler ends, no utterance is queued, nothing is left suspended and
    no rejection escapes. *)
Theorem X1_speakDiagnosis_catches
    (text : string) (e : Error) (w : World) :
  speech_fault w = Some e ->
  let w' := exec (speakDiagnosis text) w in
  state w' = with_isSpeaking false (state w)
  /\ console w' = console w ++ [("Error speaking:", e)]
  /\ speaking w' = speaking w
  /\ parked w' = parked w
  /\ unhandled w' = unhandled w.
Proof.
  intros H. simpl. rewrite H. simpl. repeat split.
Qed.

(** X1 on a panel whose synthesizer is out of order. *)
Lemma X1_witness :
  let w := set_speech_fault (Some (NativeError "no voice")) initialWorld in
  let w' := exec (speakDiagnosis "hello") w in
  state w' = with_isSpeaking false (state w)
  /\ console w' = console w ++ [("Error speaking:", NativeError "no voice")]
  /\ speaking w' = speaking w
  /\ parked w' = parked w
  /\ unhandled w' = unhandled w.
Proof.
  apply (@X1_speakDiagnosis_catches "hello" (NativeError "no voice")
           (set_speech_fault (Some (NativeError "no voice")) initialWorld)).
  reflexivity.
Defined.

(** X2. With a working synthesizer, [speakDiagnosis text] sets [isSpeaking]
    and queues one utterance carrying [text]; when that utterance is done,
    its callback clears [isSpeaking] and the queue is what it was: the state
    record differs from the one before the call in [isSpeaking] at most,
    and nothing was logged. *)
Theorem X2_speak_then_done (text : string) (w : World) :
  speech_fault w = None ->
  let w1 := exec (speakDiagnosis text) w in
  let w2 := step (SpeechDone (length (speaking w))) w1 in
  state w1 = with_isSpeaking true (state w)
  /\ map utterance_text (speaking w1)
     = map utterance_text (speaking w) ++ [text]
  /\ state w2 = with_isSpeaking false (state w)
  /\ speaking w2 = speaking w
  /\ console w2 = console w
  /\ unhandled w2 = unhandled w.
Proof.
  intros H. destruct w; simpl in *; subst.
  run_trace. rewrite map_app. repeat split.
Qed.

(** X2 on a freshly mounted panel. *)
Lemma X2_witness :
  state (step (SpeechDone 0) (exec (speakDiagnosis "hello") initialWorld))
  = with_isSpeaking false initialState.
Proof.
  apply (@X2_speak_then_done "hello" initialWorld). reflexivity.
Defined.

(** ** Stopping a capture *)

(** X3. [stopRecording] with a capture [r] in [recording.current]: at once
    [isRecording] is cleared and [isProcessing] set, and the handler waits
    for [r.stopAndUnloadAsync()]; when that resolves, the reference is
    cleared and exactly one timer of 1500 ms is added, whose callback calls
    [processConsultation]; the state record is not touched again and
    nothing is logged or left suspended. *)
Theorem X3_stopRecording_success (w : World) (r : Recording) :
  recording w = Some r ->
  let w1 := exec stopRecording w in
  let w2 := step (Settle (length (parked w)) Resolve_void) w1 in
  state w1 = with_isProcessing true (with_isRecording false (state w))
  /\ (exists k,
         parked w1 = parked w ++ [Park (Recording_stopAndUnloadAsync r) k])
  /\ timers w1 = timers w
  /\ recording w1 = Some r
  /\ state w2 = state w1
  /\ recording w2 = None
  /\ timers w2 = timers w ++ [(1500, Spawn processConsultation Ret)]
  /\ parked w2 = parked w
  /\ console w2 = console w
  /\ unhandled w2 = unhandled w.
Proof.
  intros H. destruct w; simpl in *; subst.
  run_trace. repeat split. eexists. reflexivity.
Qed.

(** X3 on the sample panel that is recording. *)
Lemma X3_witness :
  recording
    (step (Settle 0 Resolve_void) (exec stopRecording world_while_recording))
  = None.
Proof.
  apply (@X3_stopRecording_success world_while_recording sample_capture).
  reflexivity.
Defined.

(** X4. [stopRecording] called twice on the same capture before the first
    call is resumed: the first resumption clears the reference and sets the
    timer; the second one reads [recording.current] again, finds [null], and
    ends in a [TypeError] nobody handles.  One timer is set, not two. *)
Theorem X4_stopRecording_twice (w : World) (r : Recording) :
  recording w = Some r ->
  let n := length (parked w) in
  let w' := run [Settle n Resolve_void; Settle n Resolve_void]
              (exec stopRecording (exec stopRecording w)) in
  timers w' = timers w ++ [(1500, Spawn processConsultation Ret)]
  /\ (exists msg, unhandled w' = unhandled w ++ [TypeError msg])
  /\ recording w' = None
  /\ parked w' = parked w
  /\ console w' = console w.
Proof.
  intros H.
  destruct w as [st rc pk tm sp co un hi sf]; simpl in H; subst.
  intros n w'. subst n.
  run_to w' E. repeat split. eexists. reflexivity.
Qed.

(** X4 on the sample panel that is recording. *)
Lemma X4_witness :
  timers
    (run [Settle 0 Resolve_void; Settle 0 Resolve_void]
       (exec stopRecording (exec stopRecording world_while_recording)))
  = timers world_while_recording ++ [(1500, Spawn processConsultation Ret)].
Proof.
  apply (@X4_stopRecording_twice world_while_recording sample_capture).
  reflexivity.
Defined.

(** ** A whole consultation *)

(** X5. One consultation by voice on an idle panel with a working
    synthesizer: tap, the three platform calls of [startRecording] succeed,
    tap again, the capture is finalized, the timer fires, the reading ends.
    The panel is idle again and shows the fixed recommendation: every flag
    is [false], [audioUri] and [imageUri] are what they were, the reference
    is cleared, and nothing is left suspended, scheduled, queued or
    logged. *)
Theorem X5_voice_consultation
    (w : World) (p : PermissionResponse) (r : Recording) :
  isRecording (state w) = false ->
  speech_fault w = None ->
  let n := length (parked w) in
  let w' := run [PressRecord; Settle n (Resolve_permission p);
                 Settle n Resolve_void; Settle n (Resolve_recording r);
                 PressRecord; Settle n Resolve_void;
                 TimerFires (length (timers w));
                 SpeechDone (length (speaking w))] w in
  state w' = {| isRecording := false;
                audioUri := audioUri (state w);
                imageUri := imageUri (state w);
                diagnosis := mockDiagnosis;
                isProcessing := false;
                isSpeaking := false |}
  /\ recording w' = None
  /\ parked w' = parked w
  /\ timers w' = timers w
  /\ speaking w' = speaking w
  /\ console w' = console w
  /\ unhandled w' = unhandled w.
Proof.
  intros Hidle Hsp.
  destruct w as [st rc pk tm sp co un hi sf]; simpl in Hidle, Hsp; subst.
  intros n w'. subst n.
  run_to w' E. repeat split.
Qed.

(** X5 on a freshly mounted panel. *)
Lemma X5_witness :
  state
    (run [PressRecord; Settle 0 (Resolve_permission granted);
          Settle 0 Resolve_void; Settle 0 (Resolve_recording sample_capture);
          PressRecord; Settle 0 Resolve_void; TimerFires 0; SpeechDone 0]
       initialWorld)
  = with_diagnosis mockDiagnosis initialState.
Proof.
  apply (@X5_voice_consultation initialWorld granted sample_capture);
    reflexivity.
Defined.

(** ** Properties of every execution *)

Lemma allowed_without_gates (pol : Policy) :
  (forall (X : Type) (c : Call X) s st, settle_gate pol c s st = true) ->
  (forall st, timer_gate pol st = true) ->
  (forall e st, press_gate pol e st = true) ->
  forall evs w, allowed pol evs w = true.
Proof.
  intros Hs Ht Hp evs.
  induction evs as [|e evs IH]; intros w; simpl; [reflexivity|].
  rewrite IH, andb_true_r.
  destruct e as [ | | | | i o | i | i | o ]; simpl; auto.
  - destruct (nth_error (parked w) i) as [[X c k]|]; [|reflexivity].
    destruct (deliver c o); auto.
  - destruct (nth_error (timers w) i); auto.
Qed.

Lemma run_app (evs evs' : list Event) :
  forall w, run (evs ++ evs') w = run evs' (run evs w).
Proof.
  induction evs as [|e evs IH]; intros w; simpl; [reflexivity | apply IH].
Qed.

Lemma truthy_nonempty (s : string) : truthy s = true -> s <> "".
Proof.
  unfold truthy. intros H E. subst s. discriminate.
Qed.

Lemma fixed_text_handlers :
  respects fixed_text startRecording
  /\ respects fixed_text stopRecording
  /\ respects fixed_text pickImage
  /\ respects fixed_text processConsultation
  /\ forall text, respects fixed_text (speakDiagnosis text).
Proof.
  unfold holds. break_task.
  all: unfold holds in *; simpl in *.
  all: try assumption.
  all: try match goal with H : _ /\ _ /\ _ |- _ =>
             destruct H as (Hd & Hs & Hu) end.
  all: try match goal with H : _ /\ _ |- _ => destruct H as (Hd & Hu) end.
  all: try discriminate; auto.
  all: try (apply Forall_snoc; [assumption | reflexivity]).
Qed.

Lemma fixed_text_press (e : Event) (w : World) :
  is_press e = true -> holds fixed_text w ->
  press_gate fixed_text e (state w) = true ->
  holds fixed_text (step e w).
Proof.
  unfold holds. intros He (Hd & Hs & Hu) _.
  destruct e; try discriminate; unfold step.
  - destruct (isRecording (state w)); break_task; simpl in *; auto.
  - break_task; simpl in *; auto.
  - destruct (truthy_opt (imageUri (state w))); break_task; simpl in *;
      auto; try discriminate.
    apply Forall_snoc; [assumption | reflexivity].
  - destruct (truthy (diagnosis (state w))) eqn:Ht; simpl;
      [|repeat split; assumption].
    apply truthy_nonempty in Ht.
    assert (Hm : diagnosis (state w) = mockDiagnosis)
      by (destruct Hd; [contradiction | assumption]).
    destruct (isSpeaking (state w)) eqn:Hsp; simpl;
      [repeat split; try assumption; intros _; exact Hm|].
    break_task; simpl in *; auto; try discriminate.
    apply Forall_snoc; [assumption | exact Hm].
Qed.

Lemma fixed_text_done (s : ConsultationState) (us : list Utterance)
    (i : nat) (u : Utterance) :
  property fixed_text s us -> nth_error us i = Some u ->
  after_done fixed_text s (remove_nth i us).
Proof.
  simpl. intros (Hd & _ & Hu) _. split; [assumption|].
  apply Forall_remove_nth; assumption.
Qed.

Lemma fixed_text_run (evs : list Event) :
  holds fixed_text (run evs initialWorld).
Proof.
  apply (run_holds fixed_text_handlers fixed_text_press fixed_text_done).
  - repeat split; [left; reflexivity | discriminate | constructor].
  - apply deferred_initialWorld.
  - apply allowed_without_gates; reflexivity.
Qed.

(** X6. In every state the panel can reach, by any taps, settlements,
    timers and callbacks: [diagnosis] is empty or the fixed recommendation;
    while [isSpeaking] is [true] it is the fixed recommendation; and every
    utterance handed to the synthesizer and not yet finished reads the
    fixed recommendation. *)
Theorem X6_only_the_fixed_text (evs : list Event) :
  let w := run evs initialWorld in
  (diagnosis (state w) = "" \/ diagnosis (state w) = mockDiagnosis)
  /\ (isSpeaking (state w) = false \/ diagnosis (state w) = mockDiagnosis)
  /\ Forall (fun u => utterance_text u = mockDiagnosis) (speaking w).
Proof.
  intros w.
  destruct (fixed_text_run evs) as (Hd & Hs & Hu). fold w in Hd, Hs, Hu.
  repeat split; try assumption.
  destruct (isSpeaking (state w)); [right; auto | left; reflexivity].
Qed.

(** What the run-time holds for later respects a discipline after any
    event, whether the discipline was followed or not. *)
Lemma step_deferred (pol : Policy) (e : Event) (w : World) :
  respects pol startRecording
  /\ respects pol stopRecording
  /\ respects pol pickImage
  /\ respects pol processConsultation
  /\ (forall text, respects pol (speakDiagnosis text)) ->
  deferred_respect pol w -> deferred_respect pol (step e w).
Proof.
  intros (Hstart & Hstop & Hpick & Hproc & Hspeak) Hd.
  destruct e as [ | | | | i o | i | i | o ]; unfold step.
  - destruct (isRecording (state w)); apply exec_deferred; assumption.
  - apply exec_deferred; assumption.
  - destruct (truthy_opt (imageUri (state w)));
      [apply exec_deferred|]; assumption.
  - destruct (truthy (diagnosis (state w)) && negb (isSpeaking (state w)));
      [apply exec_deferred; [apply Hspeak|]|]; assumption.
  - destruct (nth_error (parked w) i) as [[X c k]|] eqn:Hi; [|assumption].
    destruct (deliver c o) as [s|]; [|assumption].
    destruct Hd as (Hpk & Htm & Hu).
    pose proof (Forall_nth_error _ Hpk Hi) as Hk. simpl in Hk.
    apply exec_deferred; [apply Hk|].
    repeat split; simpl; try assumption.
    apply Forall_remove_nth; assumption.
  - destruct (nth_error (timers w) i) as [[ms cb]|] eqn:Hi; [|assumption].
    destruct Hd as (Hpk & Htm & Hu).
    pose proof (Forall_nth_error _ Htm Hi) as [Hcb _].
    apply exec_deferred; [assumption|].
    repeat split; simpl; try assumption.
    apply Forall_remove_nth; assumption.
  - destruct (nth_error (speaking w) i) as [u|] eqn:Hi; [|assumption].
    destruct Hd as (Hpk & Htm & Hu).
    pose proof (Forall_nth_error _ Hu Hi) as [Hcb _].
    apply exec_deferred; [assumption|].
    repeat split; simpl; try assumption.
    apply Forall_remove_nth; assumption.
  - assumption.
Qed.

Lemma run_deferred (pol : Policy) (evs : list Event) :
  respects pol startRecording
  /\ respects pol stopRecording
  /\ respects pol pickImage
  /\ respects pol processConsultation
  /\ (forall text, respects pol (speakDiagnosis text)) ->
  forall w, deferred_respect pol w -> deferred_respect pol (run evs w).
Proof.
  intros H. induction evs as [|e evs IH]; intros w Hw; simpl;
    [assumption | apply IH, step_deferred; assumption].
Qed.

Lemma diagnosis_shown_handlers :
  respects diagnosis_shown startRecording
  /\ respects diagnosis_shown stopRecording
  /\ respects diagnosis_shown pickImage
  /\ respects diagnosis_shown processConsultation
  /\ forall text, respects diagnosis_shown (speakDiagnosis text).
Proof.
  unfold holds. break_task.
  all: unfold holds in *; simpl in *; auto.
Qed.

Lemma diagnosis_shown_press (e : Event) (w : World) :
  is_press e = true -> holds diagnosis_shown w ->
  press_gate diagnosis_shown e (state w) = true ->
  holds diagnosis_shown (step e w).
Proof.
  unfold holds. intros He Hw _.
  destruct e; try discriminate; unfold step.
  - destruct (isRecording (state w)); break_task; auto.
  - break_task; auto.
  - destruct (truthy_opt (imageUri (state w))); break_task; auto.
  - destruct (truthy (diagnosis (state w)) && negb (isSpeaking (state w)));
      break_task; auto.
Qed.

(** X7. No operation clears a diagnosis: once an execution has reached a
    state that shows the fixed recommendation, every continuation of that
    execution still shows it. *)
Theorem X7_diagnosis_never_cleared (evs evs' : list Event) :
  diagnosis (state (run evs initialWorld)) = mockDiagnosis ->
  diagnosis (state (run (evs ++ evs') initialWorld)) = mockDiagnosis.
Proof.
  intros H. rewrite run_app.
  apply (run_holds diagnosis_shown_handlers diagnosis_shown_press); auto.
  - apply run_deferred;
      [apply diagnosis_shown_handlers | apply deferred_initialWorld].
  - apply allowed_without_gates; reflexivity.
Qed.

(** X7 on a panel that got its diagnosis from a photo and is then used for
    a recording. *)
Lemma X7_witness :
  diagnosis
    (state (run ((pick_ok ++ [PressGetDiagnosis]) ++ start_ok ++ stop_ok)
              initialWorld))
  = mockDiagnosis.
Proof.
  apply X7_diagnosis_never_cleared. vm_compute. reflexivity.
Defined.

(** ** The photo and its button *)

Lemma no_photo_handlers :
  respects no_photo startRecording
  /\ respects no_photo stopRecording
  /\ respects no_photo pickImage
  /\ respects no_photo processConsultation
  /\ forall text, respects no_photo (speakDiagnosis text).
Proof.
  unfold holds. break_task.
  all: unfold holds in *; simpl in *; auto; discriminate.
Qed.

Lemma no_photo_press (e : Event) (w : World) :
  is_press e = true -> holds no_photo w ->
  press_gate no_photo e (state w) = true ->
  holds no_photo (step e w).
Proof.
  unfold holds. intros He Hw _.
  destruct e; try discriminate; unfold step.
  - destruct (isRecording (state w)); break_task; auto.
  - break_task; auto.
  - destruct (truthy_opt (imageUri (state w))); break_task; auto.
  - destruct (truthy (diagnosis (state w)) && negb (isSpeaking (state w)));
      break_task; auto.
Qed.

(** X8. Only a selection returned by the picker writes [imageUri]: in every
    state reached by taps, settlements and callbacks among which the picker
    never resolves with a selection (it is cancelled, fails or stays open),
    [imageUri] is [null], and a tap where the Get Diagnosis button would be
    does nothing, the button not being rendered. *)
Theorem X8_no_photo_no_button (evs : list Event) :
  allowed no_photo evs initialWorld = true ->
  let w := run evs initialWorld in
  imageUri (state w) = None /\ step PressGetDiagnosis w = w.
Proof.
  intros Ha w.
  assert (H : imageUri (state w) = None).
  { apply (run_holds no_photo_handlers no_photo_press); auto.
    - reflexivity.
    - apply deferred_initialWorld. }
  split; [assumption|].
  unfold step. rewrite H. reflexivity.
Qed.

(** X8 on a recording made while the picker is opened and cancelled. *)
Lemma X8_witness :
  let w := run (start_ok
                ++ [PressUploadImage;
                    Settle 0 (Resolve_picker
                                {| canceled := true; assets := [] |})]
                ++ stop_ok ++ [TimerFires 0]) initialWorld in
  imageUri (state w) = None /\ step PressGetDiagnosis w = w.
Proof.
  apply X8_no_photo_no_button. vm_compute. reflexivity.
Defined.

(** ** Taps and the rendered screen *)

(** X9. The four taps of the event loop are the four touchables of the
    screen that [HomeScreen] renders for the current state: a tap runs the
    [onPress] of the control carrying that style, and does nothing when the
    control is disabled or is not rendered. *)
Theorem X9_taps_follow_the_screen (w : World) :
  step PressRecord w = press "recordButton" (HomeScreen (state w)) w
  /\ step PressUploadImage w = press "imageButton" (HomeScreen (state w)) w
  /\ step PressGetDiagnosis w = press "submitButton" (HomeScreen (state w)) w
  /\ step PressSpeak w = press "speakButton" (HomeScreen (state w)) w.
Proof.
  unfold step, press, HomeScreen, VoiceConsultation, when, truthy_opt.
  destruct (isRecording (state w)), (imageUri (state w)) as [u|],
    (isProcessing (state w)), (truthy (diagnosis (state w))),
    (isSpeaking (state w));
    try destruct (truthy u); repeat split; reflexivity.
Qed.

(** X10. Whatever the panel has gone through, the diagnosis text on the
    screen, when there is one, is the fixed recommendation, and there is at
    most one such text. *)
Theorem X10_displayed_diagnosis (evs : list Event) :
  let shown := texts "diagnosisText" (HomeScreen (state (run evs initialWorld))) in
  shown = [] \/ shown = [mockDiagnosis].
Proof.
  intros shown. subst shown.
  destruct (fixed_text_run evs) as ([Hd | Hd] & _ & _).
  - left. unfold HomeScreen, VoiceConsultation, when.
    rewrite Hd.
    destruct (imageUri (state (run evs initialWorld))) as [u|],
      (isProcessing (state (run evs initialWorld)));
      try destruct (truthy u); reflexivity.
  - right. unfold HomeScreen, VoiceConsultation, when.
    rewrite Hd.
    destruct (imageUri (state (run evs initialWorld))) as [u|],
      (isProcessing (state (run evs initialWorld)));
      try destruct (truthy u); reflexivity.
Qed.

(** ** Overlapping starts and stops *)

(** X11. [startRecording] called twice before either call has finished
    (two taps while the first permission request is open), all six platform
    calls succeeding in turn: two captures are created, [recording.current]
    holds the second one only, and the next [stopRecording] finalizes that
    one and clears the reference; the first capture is never stopped. *)
Theorem X11_startRecording_twice
    (w : World) (p1 p2 : PermissionResponse) (r1 r2 : Recording) :
  let n := length (parked w) in
  let w' := run [Settle n (Resolve_permission p1);
                 Settle n (Resolve_permission p2);
                 Settle n Resolve_void; Settle n Resolve_void;
                 Settle n (Resolve_recording r1);
                 Settle n (Resolve_recording r2)]
              (exec startRecording (exec startRecording w)) in
  let w'' := step (Settle n Resolve_void) (exec stopRecording w') in
  recording w' = Some r2
  /\ state w' = with_isRecording true (state w)
  /\ parked w' = parked w
  /\ (exists k,
         parked (exec stopRecording w')
         = parked w ++ [Park (Recording_stopAndUnloadAsync r2) k])
  /\ recording w'' = None
  /\ parked w'' = parked w.
Proof.
  destruct w as [st rc pk tm sp co un hi sf].
  intros n w' w''. subst n.
  run_to w' E. subst w''. eval_step.
  repeat split. eexists. reflexivity.
Qed.

(** X12. A capture [r] is active; the button is tapped (stop) and tapped
    again (start) and the new capture is created before the finalization of
    [r] resolves.  The resumed [stopRecording] then clears the reference,
    which by now holds the new capture: the panel shows [isRecording] with
    no capture in [recording.current], the new capture is never stopped,
    and further taps on the record button do nothing. *)
Theorem X12_stop_overtaken_by_start
    (w : World) (r r2 : Recording) (p : PermissionResponse) :
  isRecording (state w) = true ->
  recording w = Some r ->
  let n := length (parked w) in
  let w' := run [PressRecord; PressRecord;
                 Settle (S n) (Resolve_permission p);
                 Settle (S n) Resolve_void;
                 Settle (S n) (Resolve_recording r2);
                 Settle n Resolve_void] w in
  isRecording (state w') = true
  /\ isProcessing (state w') = true
  /\ recording w' = None
  /\ parked w' = parked w
  /\ step PressRecord w' = w'.
Proof.
  intros Hrec Hcur.
  destruct w as [st rc pk tm sp co un hi sf]; simpl in Hrec, Hcur; subst.
  intros n w'. subst n.
  run_to w' E. eval_step. repeat split.
Qed.

(** X12 on the sample panel that is recording. *)
Lemma X12_witness :
  let n := length (parked world_while_recording) in
  let w' := run [PressRecord; PressRecord;
                 Settle (S n) (Resolve_permission granted);
                 Settle (S n) Resolve_void;
                 Settle (S n) (Resolve_recording sample_capture);
                 Settle n Resolve_void] world_while_recording in
  isRecording (state w') = true
  /\ isProcessing (state w') = true
  /\ recording w' = None
  /\ parked w' = parked world_while_recording
  /\ step PressRecord w' = w'.
Proof.
  apply (@X12_stop_overtaken_by_start world_while_recording sample_capture
           sample_capture granted); vm_compute; reflexivity.
Defined.

(** ** Generating a diagnosis again *)

(** X13. [processConsultation] run twice with a working synthesizer queues
    two utterances of the fixed recommendation; when the first one is done
    its callback clears [isSpeaking] although the second one is still to be
    read, so that the speak control is enabled during a reading. *)
Theorem X13_flag_cleared_during_reading (w : World) :
  speech_fault w = None ->
  let w2 := exec processConsultation (exec processConsultation w) in
  let w3 := step (SpeechDone (length (speaking w))) w2 in
  map utterance_text (speaking w2)
  = map utterance_text (speaking w) ++ [mockDiagnosis; mockDiagnosis]
  /\ isSpeaking (state w2) = true
  /\ map utterance_text (speaking w3)
     = map utterance_text (speaking w) ++ [mockDiagnosis]
  /\ isSpeaking (state w3) = false
  /\ length (speaking (step PressSpeak w3)) = S (length (speaking w3)).
Proof.
  intros H.
  destruct w as [st rc pk tm sp co un hi sf]; simpl in H; subst.
  intros w2.
  eassert (E2 : w2 = _).
  { subst w2.
    eassert (E1 : exec processConsultation
                    (mkWorld st rc pk tm sp co un hi None) = _)
      by (simpl; flatten_world; reflexivity).
    rewrite E1. clear E1.
    simpl. rewrite <- ?app_assoc. simpl. flatten_world. reflexivity. }
  clearbody w2. subst w2.
  intros w3.
  eassert (E3 : w3 = _) by (subst w3; eval_step; reflexivity).
  clearbody w3. subst w3.
  eval_step. rewrite !map_app, !length_app. simpl.
  repeat split. lia.
Qed.

(** X13 on a freshly mounted panel. *)
Lemma X13_witness :
  isSpeaking
    (state (step (SpeechDone 0)
              (exec processConsultation
                 (exec processConsultation initialWorld))))
  = false.
Proof.
  apply (@X13_flag_cleared_during_reading initialWorld). reflexivity.
Defined.

(** X14. [processConsultation] touches nothing but [diagnosis],
    [isProcessing], [isSpeaking], the utterance queue and the console: a
    recording in progress ([isRecording], [recording.current]), both
    locations, the timers and the suspended handlers are what they were,
    and no rejection escapes, whether the synthesizer works or not. *)
Theorem X14_processConsultation_frame (w : World) :
  let w' := exec processConsultation w in
  isRecording (state w') = isRecording (state w)
  /\ audioUri (state w') = audioUri (state w)
  /\ imageUri (state w') = imageUri (state w)
  /\ recording w' = recording w
  /\ parked w' = parked w
  /\ timers w' = timers w
  /\ unhandled w' = unhandled w.
Proof.
  intros w'. subst w'. rewrite exec_processConsultation.
  destruct (speech_fault w); repeat split.
Qed.
